(** * PgvectorService: collection lifecycle and cross-collection search

    A shallow embedding of [src/pgvector/pgvector_service.py].

    The service is a thin layer over three collaborators that are not part
    of the repository: an embedding provider (langchain_core [Embeddings]),
    the [PGVector] vector store of langchain_community, and a PostgreSQL
    server with the pgvector extension.  The collaborators are modelled
    here as far as the service drives them:

    - the server is a [world]: whether a connection can be opened, the two
      tables [langchain_pg_collection] and [langchain_pg_embedding] (absent
      until some [PGVector] object creates them), the supply of fresh
      UUIDs, and a log of the calls made to the embedding provider;
    - float8 values are idealised as rationals ([Q]) and float arithmetic
      as exact arithmetic;
    - the distance operator of the extension is a parameter of the search
      section: nothing is assumed about it unless a statement says so;
    - the provider is a pair of total functions; its calls are logged;
    - logging and [CREATE EXTENSION IF NOT EXISTS], which leave the tables
      alone, are left out;
    - a [PGVector] object that is given no connection commits what it
      writes (module [PGVector]); the service hands it a connection of its
      own, on which nothing is committed: what was written through it is
      discarded when the connection is closed ([with_connection]).

    Python exceptions are modelled by an error monad over the world that
    keeps the state reached when the exception is raised. *)

From Stdlib Require Import List String Ascii Bool ZArith NArith QArith Lia Lqa.
From Stdlib Require Import Sorting.Sorted Sorting.Permutation.
Import ListNotations.

Local Open Scope string_scope.

(** ** Values exchanged with the collaborators *)

Definition vector := list Q.
Definition uuid := N.

(** [langchain_core.documents.Document]: text and JSON metadata. *)
Record Document := mkDocument {
  page_content : string;
  metadata : string
}.

(** [langchain_core.embeddings.Embeddings]. *)
Record Embeddings := mkEmbeddings {
  embed_documents : list string -> list vector;
  embed_query : string -> vector
}.

Inductive embed_call :=
| EmbedDocuments (texts : list string)
| EmbedQuery (text : string).

(** ** The relational store *)

(** A row of [langchain_pg_collection]; the service reads column 0 as the
    name ([row[0]] in [get_collections]). *)
Record collection_row := mkCollection {
  col_name : string;
  col_cmetadata : option string;
  col_uuid : uuid
}.

(** A row of [langchain_pg_embedding]; [collection_id] references
    [langchain_pg_collection.uuid] with ON DELETE CASCADE. *)
Record embedding_row := mkEmbedding {
  collection_id : uuid;
  embedding : vector;
  document : string;
  cmetadata : string;
  custom_id : uuid;
  row_uuid : uuid
}.

Record tables := mkTables {
  langchain_pg_collection : list collection_row;
  langchain_pg_embedding : list embedding_row
}.

Record world := mkWorld {
  reachable : bool;
  schema : option tables;
  next_uuid : N;
  embed_log : list embed_call
}.

Definition with_schema (w : world) (t : tables) : world :=
  mkWorld (reachable w) (Some t) (next_uuid w) (embed_log w).

(** ** Exceptions and the monad of service operations *)

Inductive exn :=
| OperationalError   (* the connection cannot be opened *)
| ProgrammingError   (* a table named by the statement does not exist *)
| DataError          (* the server rejects a value of the statement *)
| ValueError.

Inductive outcome (A : Type) :=
| Returns (a : A)
| Raises (e : exn).
Arguments Returns {A} a.
Arguments Raises {A} e.

Definition M (A : Type) := world -> outcome A * world.

Definition ret {A} (a : A) : M A := fun w => (Returns a, w).

Definition bind {A B} (c : M A) (f : A -> M B) : M B :=
  fun w => match c w with
           | (Returns a, w') => f a w'
           | (Raises e, w') => (Raises e, w')
           end.

Definition raise {A} (e : exn) : M A := fun w => (Raises e, w).

(** [try: c except: h], with a bare [except] clause. *)
Definition try_except {A} (c : M A) (h : M A) : M A :=
  fun w => match c w with
           | (Returns a, w') => (Returns a, w')
           | (Raises _, w') => h w'
           end.

Declare Scope pg_scope.
Delimit Scope pg_scope with pg.
Notation "x <- c ;; k" := (bind c (fun x => k))
  (at level 61, c at next level, right associativity) : pg_scope.
Notation "c ;;; k" := (bind c (fun _ => k))
  (at level 61, right associativity) : pg_scope.
Local Open Scope pg_scope.

(** [uuid.uuid4()]: the next identifier of the supply. *)
Definition uuid4 : M uuid :=
  fun w => (Returns (next_uuid w),
            mkWorld (reachable w) (schema w) (N.succ (next_uuid w)) (embed_log w)).

Fixpoint uuid4_for_each {A} (xs : list A) : M (list uuid) :=
  match xs with
  | [] => ret []
  | _ :: xs' => i <- uuid4 ;; rest <- uuid4_for_each xs' ;; ret (i :: rest)
  end.

Definition the_tables : M tables :=
  fun w => match schema w with
           | Some t => (Returns t, w)
           | None => (Raises ProgrammingError, w)
           end.

Definition put_tables (t : tables) : M unit :=
  fun w => (Returns tt, with_schema w t).

Definition record_call (c : embed_call) : M unit :=
  fun w => (Returns tt,
            mkWorld (reachable w) (schema w) (next_uuid w) (embed_log w ++ [c])).

(** [engine.connect()] and the first statement of a [Session]. *)
Definition engine_connect : M unit :=
  fun w => if reachable w then (Returns tt, w) else (Raises OperationalError, w).

(** ** Ordered queries *)

(** A row of the search query: [document], [custom_id], [distance]. *)
Definition result_row := (string * uuid * Q)%type.

Definition distance (r : result_row) : Q := snd r.

(** [ORDER BY distance ASC]: rows at the same distance keep the order of
    the table. *)
Fixpoint insert_asc (r : result_row) (rs : list result_row) : list result_row :=
  match rs with
  | [] => [r]
  | r' :: rs' =>
      if Qle_bool (distance r) (distance r') then r :: r' :: rs'
      else r' :: insert_asc r rs'
  end.

Fixpoint order_by_asc (rs : list result_row) : list result_row :=
  match rs with
  | [] => []
  | r :: rs' => insert_asc r (order_by_asc rs')
  end.

(** ** The vector store of langchain_community *)

Module PGVector.

(** [Base.metadata.create_all]. *)
Definition create_tables_if_not_exists : M unit :=
  fun w => match schema w with
           | Some _ => (Returns tt, w)
           | None => (Returns tt, with_schema w (mkTables [] []))
           end.

(** [CollectionStore.get_by_name]: the first row with that name. *)
Definition get_by_name (name : string) : M (option collection_row) :=
  t <- the_tables ;;
  ret (find (fun c => String.eqb (col_name c) name) (langchain_pg_collection t)).

(** [session.delete(collection); session.commit()]: the registry row goes,
    and with it every embedding row that references it. *)
Definition session_delete (c : collection_row) : M unit :=
  t <- the_tables ;;
  put_tables
    (mkTables
       (filter (fun c' => negb (N.eqb (col_uuid c') (col_uuid c)))
               (langchain_pg_collection t))
       (filter (fun e => negb (N.eqb (collection_id e) (col_uuid c)))
               (langchain_pg_embedding t))).

Definition delete_collection (name : string) : M unit :=
  collection <- get_by_name name ;;
  match collection with
  | None => ret tt
  | Some c => session_delete c
  end.

Definition get_or_create (name : string) (cmeta : option string)
  : M (collection_row * bool) :=
  collection <- get_by_name name ;;
  match collection with
  | Some c => ret (c, false)
  | None =>
      u <- uuid4 ;;
      t <- the_tables ;;
      let c := mkCollection name cmeta u in
      put_tables (mkTables (langchain_pg_collection t ++ [c])
                           (langchain_pg_embedding t)) ;;;
      ret (c, true)
  end.

Definition create_collection (name : string) (pre_delete_collection : bool)
  : M unit :=
  (if pre_delete_collection then delete_collection name else ret tt) ;;;
  _ <- get_or_create name None ;;
  ret tt.

(** [PGVector.__init__] with [__post_init__]. *)
Definition init (name : string) (pre_delete_collection : bool) : M unit :=
  create_tables_if_not_exists ;;;
  create_collection name pre_delete_collection.

(** [zip(texts, metadatas, embeddings, ids)] *)
Fixpoint zip4 (texts metadatas : list string) (embeddings : list vector)
         (ids : list uuid) : list (string * string * vector * uuid) :=
  match texts, metadatas, embeddings, ids with
  | t :: texts', m :: metadatas', e :: embeddings', i :: ids' =>
      (t, m, e, i) :: zip4 texts' metadatas' embeddings' ids'
  | _, _, _, _ => []
  end.

(** [session.bulk_save_objects]: each row is inserted with a fresh primary
    key. *)
Fixpoint bulk_save_objects (cid : uuid)
         (items : list (string * string * vector * uuid))
  : M (list embedding_row) :=
  match items with
  | [] => ret []
  | (t, m, e, i) :: items' =>
      pk <- uuid4 ;;
      rest <- bulk_save_objects cid items' ;;
      ret (mkEmbedding cid e t m i pk :: rest)
  end.

(** A text with a NUL character cannot be sent to the server, and the
    extension refuses a vector without components. *)
Fixpoint has_nul (s : string) : bool :=
  match s with
  | EmptyString => false
  | String c s' => Ascii.eqb c Ascii.zero || has_nul s'
  end.

Definition text_with_nul (item : string * string * vector * uuid) : bool :=
  has_nul (fst (fst (fst item))).

Definition no_component (item : string * string * vector * uuid) : bool :=
  match snd (fst item) with [] => true | _ :: _ => false end.

Definition add_embeddings (name : string) (texts : list string)
           (embeddings : list vector) (metadatas : list string)
           (ids : list uuid) : M (list uuid) :=
  collection <- get_by_name name ;;
  match collection with
  | None => raise ValueError
  | Some c =>
      let items := zip4 texts metadatas embeddings ids in
      if existsb text_with_nul items then raise ValueError
      else if existsb no_component items then raise DataError
      else
        rows <- bulk_save_objects (col_uuid c) items ;;
        t <- the_tables ;;
        put_tables (mkTables (langchain_pg_collection t)
                             (langchain_pg_embedding t ++ rows)) ;;;
        ret ids
  end.

(** [from_documents], through [from_texts] and [__from]. *)
Definition from_documents (embedding_fn : Embeddings) (documents : list Document)
           (name : string) (pre_delete_collection : bool) : M unit :=
  let texts := map page_content documents in
  let metadatas := map metadata documents in
  record_call (EmbedDocuments texts) ;;;
  let embeddings := embed_documents embedding_fn texts in
  ids <- uuid4_for_each texts ;;
  init name pre_delete_collection ;;;
  _ <- add_embeddings name texts embeddings metadatas ids ;;
  ret tt.

End PGVector.

(** ** The service *)

Module PgvectorService.

Record t := mk { embeddings : Embeddings }.

(** [with self.engine.connect() as connection: body], where [body] works
    on [connection] and the service never commits it: leaving the block
    closes the connection, and the tables are again what they were when it
    was opened, whether [body] returned or raised.  Identifiers drawn and
    provider calls made in [body] are not undone. *)
Definition with_connection {A} (body : M A) : M A :=
  fun w =>
    if reachable w then
      match body w with
      | (o, w') =>
          (o, mkWorld (reachable w') (schema w) (next_uuid w') (embed_log w'))
      end
    else (Raises OperationalError, w).

Definition get_vector (self : t) (text : string) : M vector :=
  record_call (EmbedQuery text) ;;;
  ret (embed_query (embeddings self) text).

Section Search.

(** The operator behind [EmbeddingStore.embedding.cosine_distance]:
    stored vector first, query vector second. *)
Variable cosine_distance : vector -> vector -> Q.

Definition select_row (query_vector : vector) (e : embedding_row) : result_row :=
  (document e, custom_id e, cosine_distance (embedding e) query_vector).

(** The operator is defined between vectors of one dimension. *)
Definition same_dimension (query_vector : vector) (e : embedding_row) : bool :=
  Nat.eqb (List.length (embedding e)) (List.length query_vector).

(** [session.query(document, custom_id, distance).order_by(distance.asc())
    .limit(k).all()].  The server refuses a negative LIMIT and one that
    does not fit a bigint; with a positive LIMIT it computes the distance
    of every stored row, and refuses a row whose vector has not the
    dimension of the query's. *)
Definition query_order_limit (query_vector : vector) (k : Z)
  : M (list result_row) :=
  engine_connect ;;;
  tb <- the_tables ;;
  if (k <? 0)%Z then raise DataError
  else if (9223372036854775807 <? k)%Z then raise DataError
  else if (0 <? k)%Z
          && negb (forallb (same_dimension query_vector) (langchain_pg_embedding tb))
  then raise DataError
  else ret (firstn (Z.to_nat k)
              (order_by_asc
                 (map (select_row query_vector) (langchain_pg_embedding tb)))).

Definition to_doc_score (result : result_row) : Document * Q :=
  (mkDocument (fst (fst result)) "{}", 1 - snd result).

Definition custom_similarity_search_with_scores (self : t) (query : string)
           (k : Z) : M (list (Document * Q)) :=
  query_vector <- get_vector self query ;;
  results <- query_order_limit query_vector k ;;
  ret (map to_doc_score results).

End Search.

Definition update_pgvector_collection (self : t) (docs : list Document)
           (collection_name : string) (overwrite : bool) : M unit :=
  with_connection
    (PGVector.from_documents (embeddings self) docs collection_name overwrite).

(** [SELECT * FROM public.langchain_pg_collection], column 0 of each row. *)
Definition get_collections (self : t) : M (list string) :=
  engine_connect ;;;
  try_except
    (tb <- the_tables ;; ret (map col_name (langchain_pg_collection tb)))
    (ret []).

Definition update_collection (self : t) (docs : option (list Document))
           (collection_name : string) : M unit :=
  collections <- get_collections self ;;
  match docs with
  | Some docs =>
      let overwrite :=
        existsb (String.eqb collection_name) collections in
      update_pgvector_collection self docs collection_name overwrite
  | None => ret tt
  end.

Definition delete_collection (self : t) (collection_name : string) : M unit :=
  with_connection
    (PGVector.init collection_name false ;;;
     PGVector.delete_collection collection_name).

End PgvectorService.

(** ** Reading the store *)

Definition registry (w : world) : list collection_row :=
  match schema w with Some tb => langchain_pg_collection tb | None => [] end.

Definition stored_rows (w : world) : list embedding_row :=
  match schema w with Some tb => langchain_pg_embedding tb | None => [] end.

Definition registered (name : string) (w : world) : Prop :=
  In name (map col_name (registry w)).

(** The rows of a collection: the embedding rows that reference a registry
    row of that name. *)
Definition belongs_to (name : string) (w : world) (e : embedding_row) : bool :=
  existsb (fun c => String.eqb (col_name c) name && N.eqb (col_uuid c) (collection_id e))
          (registry w).

Definition rows_of (name : string) (w : world) : list embedding_row :=
  filter (belongs_to name w) (stored_rows w).

(** Well-formed stores: a name is registered at most once, [uuid] is a key
    of the registry, and every identifier in the tables has been drawn from
    the supply. *)
Record wf (w : world) : Prop := mk_wf {
  wf_names : NoDup (map col_name (registry w));
  wf_uuids : NoDup (map col_uuid (registry w));
  wf_col_uuid : forall c, In c (registry w) -> (col_uuid c < next_uuid w)%N;
  wf_row_cid : forall e, In e (stored_rows w) -> (collection_id e < next_uuid w)%N;
  wf_row_uuid : forall e, In e (stored_rows w) -> (row_uuid e < next_uuid w)%N
}.

(** Operations that neither reach the provider nor touch the state of the
    connection, and only draw identifiers from the supply. *)
Definition quiet {A} (c : M A) : Prop :=
  forall w,
    reachable (snd (c w)) = reachable w /\
    embed_log (snd (c w)) = embed_log w /\
    (next_uuid w <= next_uuid (snd (c w)))%N.

(** ** The tables after a run, in closed form *)

Definition tables_of (w : world) : tables :=
  match schema w with Some tb => tb | None => mkTables [] [] end.

Definition lookup (name : string) (tb : tables) : option collection_row :=
  find (fun c => String.eqb (col_name c) name) (langchain_pg_collection tb).

Definition drop_row (c : collection_row) (tb : tables) : tables :=
  mkTables
    (filter (fun c' => negb (N.eqb (col_uuid c') (col_uuid c)))
            (langchain_pg_collection tb))
    (filter (fun e => negb (N.eqb (collection_id e) (col_uuid c)))
            (langchain_pg_embedding tb)).

Definition drop_collection (name : string) (tb : tables) : tables :=
  match lookup name tb with
  | None => tb
  | Some c => drop_row c tb
  end.

Definition ensure_collection (name : string) (n : N) (tb : tables) : tables * N :=
  match lookup name tb with
  | Some _ => (tb, n)
  | None =>
      (mkTables (langchain_pg_collection tb ++ [mkCollection name None n])
                (langchain_pg_embedding tb),
       N.succ n)
  end.

Definition logged (c : embed_call) (w : world) : world :=
  mkWorld (reachable w) (schema w) (next_uuid w) (embed_log w ++ [c]).

(** The rows the query hands back before [LIMIT]. *)
Definition ranked (cosine_distance : vector -> vector -> Q)
           (self : PgvectorService.t) (query : string) (w : world)
  : list result_row :=
  order_by_asc
    (map (PgvectorService.select_row cosine_distance
            (embed_query (PgvectorService.embeddings self) query))
         (stored_rows w)).

(** Rows in ascending order of distance. *)
Definition asc (a b : result_row) : Prop := distance a <= distance b.

(** ** A stub provider and a few stores, for examples *)

Definition stub_embed (text : string) : vector :=
  if String.eqb text "red fox" then [1; 0]
  else if String.eqb text "blue sky" then [0; 1]
  else if String.eqb text "red car" then [9 # 10; 1 # 10]
  else [1; 1].

Definition stub : Embeddings := mkEmbeddings (map stub_embed) stub_embed.

Definition svc : PgvectorService.t := PgvectorService.mk stub.

Definition doc (text : string) : Document := mkDocument text "{}".

(** A server that accepts connections and holds no table yet. *)
Definition fresh_server : world := mkWorld true None 0 [].

(** A server that refuses connections. *)
Definition server_down : world := mkWorld false None 0 [].

(** The store left by a run [c] started on [w]. *)
Definition after {A} (c : M A) (w : world) : world := snd (c w).

(** A server whose tables exist and hold no row. *)
Definition empty_tables : world := mkWorld true (Some (mkTables [] [])) 0 [].

(** Collection "A" with two chunks, then collection "B" with one, each
    written as steps 5 and 7 of the script write theirs: by
    [PGVector.from_documents] on a connection of its own. *)
Definition store_A : world :=
  after (PGVector.from_documents stub [doc "red fox"; doc "blue sky"] "A" false)
        fresh_server.

Definition store_AB : world :=
  after (PGVector.from_documents stub [doc "red car"] "B" false) store_A.

(** Two chunks whose texts the stub provider sends to the same vector. *)
Definition store_xy : world :=
  after (PGVector.from_documents stub [doc "x"; doc "y"] "A" false) fresh_server.


(** A text with a NUL character. *)
Definition nul_text : string := String Ascii.zero "x".

(** An instance of the distance operator for the examples: cosine distance
    with the square root taken to nine decimals.  The null vector, for
    which the operator of the extension has no number to give, is put at
    distance 1. *)
Definition dot (a b : vector) : Q :=
  fold_right Qplus 0 (map (fun p => fst p * snd p) (combine a b)).

Definition Qsqrt9 (q : Q) : Q :=
  Qred (Z.sqrt (Qnum q * 10 ^ 18 / Zpos (Qden q)) # 10 ^ 9).

Definition cosine_distance_9 (a b : vector) : Q :=
  let norms := Qsqrt9 (dot a a * dot b b) in
  if Qeq_bool norms 0 then 1 else Qred (1 - dot a b / norms).

(** ** Choosing the provider *)

(** What [_get_embeddings] hands back: the object it was given, or a
    freshly built provider of one of two classes. *)
Inductive provider_choice :=
| Given (e : Embeddings)
| HuggingFaceEmbeddings (model_name : string)
| OpenAIEmbeddings.

(** [str.lower] on the letters A-Z (and its converse on a-z); other
    characters cannot turn into a character of "true", "1" or "yes" and
    are left alone. *)
Definition ascii_lower (c : ascii) : ascii :=
  let n := nat_of_ascii c in
  if (65 <=? n)%nat && (n <=? 90)%nat then ascii_of_nat (n + 32) else c.

Definition ascii_upper (c : ascii) : ascii :=
  let n := nat_of_ascii c in
  if (97 <=? n)%nat && (n <=? 122)%nat then ascii_of_nat (n - 32) else c.

Fixpoint lower (s : string) : string :=
  match s with
  | EmptyString => EmptyString
  | String c s' => String (ascii_lower c) (lower s')
  end.

(** A spelling of [s] in another case: the letter at a position is put in
    upper case where [mask] says so and in lower case elsewhere, as far as
    [mask] reaches. *)
Fixpoint recase (mask : list bool) (s : string) : string :=
  match s, mask with
  | EmptyString, _ => EmptyString
  | String c s', [] => String c s'
  | String c s', b :: mask' =>
      String (if b then ascii_upper c else ascii_lower c) (recase mask' s')
  end.

(** [os.getenv(name, "")] on an environment that may lack the variable. *)
Definition getenv (value : option string) : string :=
  match value with Some v => v | None => "" end.

(** [_get_embeddings]; [USE_LOCAL_EMBEDDINGS] is the value of that
    environment variable, if set. *)
Definition _get_embeddings (embeddings : option Embeddings)
           (USE_LOCAL_EMBEDDINGS : option string) : provider_choice :=
  match embeddings with
  | Some e => Given e
  | None =>
      let flag := lower (getenv USE_LOCAL_EMBEDDINGS) in
      if String.eqb flag "true" || String.eqb flag "1" || String.eqb flag "yes"
      then HuggingFaceEmbeddings "sentence-transformers/all-MiniLM-L6-v2"
      else OpenAIEmbeddings
  end.

(** ** The quickstart script *)

Definition COLLECTION_NAME : string :=
  "The Project Gutenberg eBook of A Christmas Carol in Prose".

Definition COLLECTION_NAME_2 : string :=
  "The Project Gutenberg eBook of Romeo and Juliet".

(** What a function of the script can raise: an error of the service, or
    the [IndexError] of [docs[0]] on an empty list. *)
Inductive script_exn :=
| ServiceError (e : exn)
| IndexError.

Inductive script_outcome :=
| Done
| Failed (e : script_exn).

(** [run_query_multi_pgvector], on the store and the lines printed so far. *)
Definition run_query_multi_pgvector (cosine_distance : vector -> vector -> Q)
           (docsearch : PgvectorService.t) (query : string)
           (w : world) (stdout : list string)
  : script_outcome * world * list string :=
  match PgvectorService.custom_similarity_search_with_scores
          cosine_distance docsearch query 4 w with
  | (Raises e, w') => (Failed (ServiceError e), w', stdout)
  | (Returns docs, w') =>
      match docs with
      | [] => (Failed IndexError, w', stdout)
      | top :: _ => (Done, w', (stdout ++ [page_content (fst top)])%list)
      end
  end.

(** Steps 9 and 10 of the script: both collections are deleted, then the
    first one is written again from [docs]. *)
Definition delete_then_recreate (pg : PgvectorService.t) (docs : list Document)
  : M unit :=
  PgvectorService.delete_collection pg COLLECTION_NAME ;;;
  PgvectorService.delete_collection pg COLLECTION_NAME_2 ;;;
  PgvectorService.update_collection pg (Some docs) COLLECTION_NAME.

(** * Properties *)

(** ** The monad *)

Lemma bind_returns {A B} (c : M A) (f : A -> M B) (w w' : world) (a : A) :
  c w = (Returns a, w') -> bind c f w = f a w'.
Proof. intros H. unfold bind. now rewrite H. Qed.

Lemma bind_raises {A B} (c : M A) (f : A -> M B) (w w' : world) (e : exn) :
  c w = (Raises e, w') -> bind c f w = (Raises e, w').
Proof. intros H. unfold bind. now rewrite H. Qed.

(** ** Listing collections *)

Lemma get_collections_connected (self : PgvectorService.t) (w : world) :
  reachable w = true ->
  PgvectorService.get_collections self w = (Returns (map col_name (registry w)), w).
Proof.
  intros Hr.
  unfold PgvectorService.get_collections, bind, engine_connect, try_except,
    the_tables, ret, registry.
  rewrite Hr. destruct (schema w); reflexivity.
Qed.

Lemma get_collections_refused (self : PgvectorService.t) (w : world) :
  reachable w = false ->
  PgvectorService.get_collections self w = (Raises OperationalError, w).
Proof.
  intros Hr.
  unfold PgvectorService.get_collections, bind, engine_connect.
  rewrite Hr. reflexivity.
Qed.

(** C2. On a server that accepts the connection, [get_collections] returns
    a list whose elements are exactly the names registered in
    [langchain_pg_collection], and leaves the store as it was. *)
Theorem get_collections_exactly_registered
        (self : PgvectorService.t) (w : world) :
  reachable w = true ->
  exists names,
    PgvectorService.get_collections self w = (Returns names, w) /\
    forall name, In name names <-> registered name w.
Proof.
  intros Hr. exists (map col_name (registry w)). split.
  - now apply get_collections_connected.
  - intros name. unfold registered. tauto.
Qed.

Lemma get_collections_exactly_registered_witness :
  exists names,
    PgvectorService.get_collections svc store_AB = (Returns names, store_AB) /\
    forall name, In name names <-> registered name store_AB.
Proof.
  apply (get_collections_exactly_registered svc store_AB). reflexivity.
Defined.

Example get_collections_store_AB :
  fst (PgvectorService.get_collections svc store_AB) = Returns ["A"; "B"].
Proof. reflexivity. Qed.

(** C9, as stated, fails: when the connection cannot be opened the error
    leaves [get_collections]; the [try] covers the query only. *)
Lemma get_collections_raises_when_unreachable :
  PgvectorService.get_collections svc server_down
  = (Raises OperationalError, server_down).
Proof. reflexivity. Qed.

(** C9, amended. Once the connection is open [get_collections] returns a
    list whatever the state of the tables, and the empty list when the
    registry table is absent. *)
Theorem get_collections_fails_open (self : PgvectorService.t) (w : world) :
  reachable w = true ->
  exists names,
    PgvectorService.get_collections self w = (Returns names, w) /\
    (schema w = None -> names = []).
Proof.
  intros Hr. exists (map col_name (registry w)). split.
  - now apply get_collections_connected.
  - intros Hs. unfold registry. now rewrite Hs.
Qed.

Lemma get_collections_fails_open_witness :
  exists names,
    PgvectorService.get_collections svc fresh_server = (Returns names, fresh_server) /\
    (schema fresh_server = None -> names = []).
Proof.
  apply (get_collections_fails_open svc fresh_server). reflexivity.
Defined.

(** ** Runs of the vector store, in closed form *)

Lemma get_by_name_run (name : string) (w : world) (tb : tables) :
  schema w = Some tb ->
  PGVector.get_by_name name w = (Returns (lookup name tb), w).
Proof.
  intros Hs. unfold PGVector.get_by_name, bind, the_tables, ret, lookup.
  now rewrite Hs.
Qed.

Lemma delete_collection_run (name : string) (w : world) (tb : tables) :
  schema w = Some tb ->
  PGVector.delete_collection name w
  = (Returns tt, with_schema w (drop_collection name tb)).
Proof.
  intros Hs. unfold PGVector.delete_collection.
  rewrite (bind_returns _ _ _ _ _ (get_by_name_run name w tb Hs)).
  unfold drop_collection. destruct (lookup name tb) as [c|].
  - unfold PGVector.session_delete, bind, the_tables, put_tables, drop_row.
    now rewrite Hs.
  - unfold ret, with_schema. destruct w; cbn in *. now subst.
Qed.

Lemma get_or_create_run (name : string) (w : world) (tb : tables) :
  schema w = Some tb ->
  exists c created,
    PGVector.get_or_create name None w
    = (Returns (c, created),
       mkWorld (reachable w)
               (Some (fst (ensure_collection name (next_uuid w) tb)))
               (snd (ensure_collection name (next_uuid w) tb))
               (embed_log w)).
Proof.
  intros Hs. unfold PGVector.get_or_create.
  rewrite (bind_returns _ _ _ _ _ (get_by_name_run name w tb Hs)).
  unfold ensure_collection. destruct (lookup name tb) as [c|].
  - exists c, false. unfold ret. cbn. destruct w; cbn in *. now subst.
  - eexists. exists true. unfold bind, uuid4, the_tables, put_tables, ret, with_schema.
    cbn. rewrite Hs. reflexivity.
Qed.

Lemma init_run (name : string) (pre : bool) (w : world) :
  let tb := if pre then drop_collection name (tables_of w) else tables_of w in
  PGVector.init name pre w
  = (Returns tt,
     mkWorld (reachable w)
             (Some (fst (ensure_collection name (next_uuid w) tb)))
             (snd (ensure_collection name (next_uuid w) tb))
             (embed_log w)).
Proof.
  intros tb. unfold PGVector.init.
  set (w1 := with_schema w (tables_of w)).
  assert (H1 : PGVector.create_tables_if_not_exists w = (Returns tt, w1)).
  { unfold PGVector.create_tables_if_not_exists, w1, tables_of, with_schema.
    destruct w as [r [s|] n l]; reflexivity. }
  rewrite (bind_returns _ _ _ _ _ H1).
  unfold PGVector.create_collection.
  set (w2 := with_schema w tb).
  assert (H2 : (if pre then PGVector.delete_collection name else ret tt) w1
               = (Returns tt, w2)).
  { destruct pre.
    - rewrite (delete_collection_run name w1 (tables_of w) eq_refl). reflexivity.
    - reflexivity. }
  rewrite (bind_returns _ _ _ _ _ H2).
  destruct (get_or_create_run name w2 tb eq_refl) as (c & created & H3).
  rewrite (bind_returns _ _ _ _ _ H3). reflexivity.
Qed.

Lemma lookup_Some (name : string) (tb : tables) (c : collection_row) :
  lookup name tb = Some c ->
  In c (langchain_pg_collection tb) /\ col_name c = name.
Proof.
  unfold lookup. intros H. apply find_some in H. destruct H as [Hin Heq].
  split; [exact Hin | now apply String.eqb_eq].
Qed.

Lemma lookup_None (name : string) (tb : tables) :
  lookup name tb = None <->
  ~ In name (map col_name (langchain_pg_collection tb)).
Proof.
  unfold lookup. split.
  - intros H Hin. apply in_map_iff in Hin. destruct Hin as (c & Hc & Hin).
    pose proof (find_none _ _ H c Hin) as Hn. cbn in Hn.
    rewrite Hc, String.eqb_refl in Hn. discriminate.
  - intros H. destruct (find _ _) as [c|] eqn:Hf; [|reflexivity].
    exfalso. apply H. apply find_some in Hf. destruct Hf as [Hin Heq].
    apply String.eqb_eq in Heq. apply in_map_iff. now exists c.
Qed.



(** ** Operations that only draw identifiers *)

Lemma quiet_ret {A} (a : A) : quiet (ret a).
Proof. intros w. cbn. repeat split. lia. Qed.

Lemma quiet_raise {A} (e : exn) : quiet (@raise A e).
Proof. intros w. cbn. repeat split. lia. Qed.

Lemma quiet_bind {A B} (c : M A) (f : A -> M B) :
  quiet c -> (forall a, quiet (f a)) -> quiet (bind c f).
Proof.
  intros Hc Hf w. unfold bind. specialize (Hc w).
  destruct (c w) as [[a|e] w1]; cbn in Hc |- *.
  - specialize (Hf a w1). destruct Hc as (H1 & H2 & H3), Hf as (H4 & H5 & H6).
    repeat split; try congruence. lia.
  - exact Hc.
Qed.

Lemma quiet_uuid4 : quiet uuid4.
Proof. intros w. cbn. repeat split. lia. Qed.

Lemma quiet_the_tables : quiet the_tables.
Proof. intros w. unfold the_tables. destruct (schema w); cbn; repeat split; lia. Qed.

Lemma quiet_put_tables (tb : tables) : quiet (put_tables tb).
Proof. intros w. cbn. repeat split. lia. Qed.

Create HintDb quiet.
#[local] Hint Resolve quiet_ret quiet_raise quiet_uuid4 quiet_the_tables
  quiet_put_tables : quiet.
#[local] Hint Extern 2 (quiet (bind _ _)) => apply quiet_bind; [|intros] : quiet.
#[local] Hint Extern 2 (quiet (match ?x with _ => _ end)) => destruct x : quiet.

Lemma quiet_uuid4_for_each {A} (xs : list A) : quiet (uuid4_for_each xs).
Proof. induction xs; cbn [uuid4_for_each]; auto 8 with quiet. Qed.

Lemma quiet_bulk_save_objects (cid : uuid) items :
  quiet (PGVector.bulk_save_objects cid items).
Proof.
  induction items as [|[[[t m] e] i] items IH]; cbn [PGVector.bulk_save_objects];
    auto 8 with quiet.
Qed.

Lemma quiet_create_tables : quiet PGVector.create_tables_if_not_exists.
Proof.
  intros w. unfold PGVector.create_tables_if_not_exists.
  destruct (schema w); cbn; repeat split; lia.
Qed.

#[local] Hint Resolve quiet_uuid4_for_each quiet_bulk_save_objects
  quiet_create_tables : quiet.

Lemma quiet_get_by_name (name : string) : quiet (PGVector.get_by_name name).
Proof. unfold PGVector.get_by_name. auto with quiet. Qed.

#[local] Hint Resolve quiet_get_by_name : quiet.

Lemma quiet_delete_collection (name : string) : quiet (PGVector.delete_collection name).
Proof.
  unfold PGVector.delete_collection, PGVector.session_delete. auto 8 with quiet.
Qed.

Lemma quiet_get_or_create (name : string) (cmeta : option string) :
  quiet (PGVector.get_or_create name cmeta).
Proof. unfold PGVector.get_or_create. auto 10 with quiet. Qed.

#[local] Hint Resolve quiet_delete_collection quiet_get_or_create : quiet.

Lemma quiet_init (name : string) (pre : bool) : quiet (PGVector.init name pre).
Proof.
  unfold PGVector.init, PGVector.create_collection. destruct pre; auto 10 with quiet.
Qed.

Lemma quiet_add_embeddings (name : string) texts embeddings metadatas ids :
  quiet (PGVector.add_embeddings name texts embeddings metadatas ids).
Proof.
  unfold PGVector.add_embeddings.
  apply quiet_bind; [auto with quiet|]. intros [c|]; [|auto with quiet].
  destruct (existsb _ _); [auto with quiet|].
  destruct (existsb _ _); auto 10 with quiet.
Qed.

#[local] Hint Resolve quiet_init quiet_add_embeddings : quiet.

(** [PGVector.from_documents] asks the provider once, for the whole batch,
    before anything else, and is quiet from there on. *)
Lemma from_documents_after (embedding_fn : Embeddings) (docs : list Document)
      (name : string) (pre : bool) (w : world) :
  let w' := snd (PGVector.from_documents embedding_fn docs name pre w) in
  reachable w' = reachable w /\
  embed_log w' = (embed_log w ++ [EmbedDocuments (map page_content docs)])%list /\
  (next_uuid w <= next_uuid w')%N.
Proof.
  unfold PGVector.from_documents. unfold bind at 1. unfold record_call at 1.
  match goal with
  | |- context [bind ?c ?f] =>
      assert (Hq : quiet (bind c f)) by auto 10 with quiet
  end.
  exact (Hq _).
Qed.

(** ** The writes of the service are discarded *)

Lemma with_connection_refused {A} (body : M A) (w : world) :
  reachable w = false ->
  PgvectorService.with_connection body w = (Raises OperationalError, w).
Proof. intros Hr. unfold PgvectorService.with_connection. now rewrite Hr. Qed.

Lemma with_connection_connected {A} (body : M A) (w : world) :
  reachable w = true ->
  PgvectorService.with_connection body w
  = (fst (body w),
     mkWorld (reachable (snd (body w))) (schema w) (next_uuid (snd (body w)))
             (embed_log (snd (body w)))).
Proof.
  intros Hr. unfold PgvectorService.with_connection. rewrite Hr.
  now destruct (body w).
Qed.

Lemma update_pgvector_collection_after (self : PgvectorService.t)
      (docs : list Document) (name : string) (overwrite : bool) (w : world) :
  let w' := after (PgvectorService.update_pgvector_collection self docs name
                     overwrite) w in
  reachable w' = reachable w /\
  schema w' = schema w /\
  (next_uuid w <= next_uuid w')%N /\
  embed_log w'
  = (if reachable w
     then embed_log w ++ [EmbedDocuments (map page_content docs)]
     else embed_log w)%list.
Proof.
  unfold after, PgvectorService.update_pgvector_collection.
  destruct (reachable w) eqn:Hr.
  - rewrite (with_connection_connected _ w Hr). cbn [snd reachable schema next_uuid
                                                      embed_log].
    destruct (from_documents_after (PgvectorService.embeddings self) docs name
                overwrite w) as (H1 & H2 & H3).
    rewrite H1, H2. auto.
  - rewrite (with_connection_refused _ w Hr). cbn. repeat split; auto. lia.
Qed.

Lemma update_collection_refused (self : PgvectorService.t) docs (name : string)
      (w : world) :
  reachable w = false ->
  PgvectorService.update_collection self docs name w = (Raises OperationalError, w).
Proof.
  intros Hr. unfold PgvectorService.update_collection.
  now rewrite (bind_raises _ _ _ _ _ (get_collections_refused self w Hr)).
Qed.

Lemma update_collection_connected (self : PgvectorService.t)
      (docs : list Document) (name : string) (w : world) :
  reachable w = true ->
  PgvectorService.update_collection self (Some docs) name w
  = PgvectorService.update_pgvector_collection self docs name
      (existsb (String.eqb name) (map col_name (registry w))) w.
Proof.
  intros Hr. unfold PgvectorService.update_collection.
  now rewrite (bind_returns _ _ _ _ _ (get_collections_connected self w Hr)).
Qed.

Lemma update_collection_returns_inv (self : PgvectorService.t) docs (name : string)
      (w w' : world) :
  PgvectorService.update_collection self docs name w = (Returns tt, w') ->
  reachable w = true.
Proof.
  intros H. destruct (reachable w) eqn:Hr; [reflexivity|].
  rewrite (update_collection_refused self docs name w Hr) in H. discriminate.
Qed.

Lemma update_collection_after (self : PgvectorService.t)
      (docs : list Document) (name : string) (w : world) :
  let w' := after (PgvectorService.update_collection self (Some docs) name) w in
  reachable w' = reachable w /\
  schema w' = schema w /\
  (next_uuid w <= next_uuid w')%N /\
  embed_log w'
  = (if reachable w
     then embed_log w ++ [EmbedDocuments (map page_content docs)]
     else embed_log w)%list.
Proof.
  unfold after. destruct (reachable w) eqn:Hr.
  - rewrite (update_collection_connected self docs name w Hr).
    pose proof (update_pgvector_collection_after self docs name
                  (existsb (String.eqb name) (map col_name (registry w))) w) as H.
    unfold after in H. now rewrite Hr in H.
  - rewrite (update_collection_refused self (Some docs) name w Hr).
    cbn. repeat split; auto. lia.
Qed.

Lemma delete_collection_refused (self : PgvectorService.t) (name : string)
      (w : world) :
  reachable w = false ->
  PgvectorService.delete_collection self name w = (Raises OperationalError, w).
Proof. intros Hr. now apply with_connection_refused. Qed.

Lemma delete_collection_after (self : PgvectorService.t) (name : string)
      (w : world) :
  let w' := after (PgvectorService.delete_collection self name) w in
  reachable w' = reachable w /\
  schema w' = schema w /\
  (next_uuid w <= next_uuid w')%N /\
  embed_log w' = embed_log w.
Proof.
  unfold after, PgvectorService.delete_collection.
  destruct (reachable w) eqn:Hr.
  - rewrite (with_connection_connected _ w Hr).
    cbn [snd reachable schema next_uuid embed_log].
    assert (Hq : quiet (PGVector.init name false ;;; PGVector.delete_collection name))
      by auto with quiet.
    destruct (Hq w) as (H1 & H2 & H3). rewrite H1, H2. auto.
  - rewrite (with_connection_refused _ w Hr). cbn. repeat split; auto. lia.
Qed.

Lemma delete_collection_returns (self : PgvectorService.t) (name : string)
      (w : world) :
  reachable w = true ->
  fst (PgvectorService.delete_collection self name w) = Returns tt.
Proof.
  intros Hr. unfold PgvectorService.delete_collection.
  rewrite (with_connection_connected _ w Hr). cbn [fst].
  unfold bind at 1. rewrite init_run.
  now erewrite delete_collection_run by reflexivity.
Qed.

Lemma registry_schema (w w' : world) : schema w' = schema w -> registry w' = registry w.
Proof. unfold registry. now intros ->. Qed.

Lemma stored_rows_schema (w w' : world) :
  schema w' = schema w -> stored_rows w' = stored_rows w.
Proof. unfold stored_rows. now intros ->. Qed.

Lemma rows_of_schema (name : string) (w w' : world) :
  schema w' = schema w -> rows_of name w' = rows_of name w.
Proof. unfold rows_of, belongs_to, registry, stored_rows. now intros ->. Qed.

Lemma wf_grow (w w' : world) :
  schema w' = schema w -> (next_uuid w <= next_uuid w')%N -> wf w -> wf w'.
Proof.
  intros Hs Hn [H1 H2 H3 H4 H5].
  constructor; rewrite ?(registry_schema w w' Hs), ?(stored_rows_schema w w' Hs);
    auto; intros x Hx; [apply H3 in Hx | apply H4 in Hx | apply H5 in Hx]; lia.
Qed.

(** ** Updating with no documents at all *)

Lemma update_collection_None_run (self : PgvectorService.t) (name : string)
      (w : world) :
  reachable w = true ->
  PgvectorService.update_collection self None name w = (Returns tt, w).
Proof.
  intros Hr. unfold PgvectorService.update_collection.
  now rewrite (bind_returns _ _ _ _ _ (get_collections_connected self w Hr)).
Qed.

(** C10, as stated, fails: [update_collection] lists the collections before
    it looks at [docs], so on a server that refuses the connection the call
    raises. *)
Lemma update_collection_None_raises_when_unreachable :
  PgvectorService.update_collection svc None "A" server_down
  = (Raises OperationalError, server_down).
Proof. reflexivity. Qed.

(** C10, amended. With [docs = None] the store, the identifier supply and
    the log of provider calls are left as they were, for every name and
    every state of the server; the call returns whenever the connection can
    be opened. *)
Theorem update_collection_None_noop
        (self : PgvectorService.t) (name : string) (w : world) :
  after (PgvectorService.update_collection self None name) w = w /\
  (reachable w = true ->
   PgvectorService.update_collection self None name w = (Returns tt, w)).
Proof.
  unfold after. destruct (reachable w) eqn:Hr.
  - rewrite (update_collection_None_run self name w Hr). auto.
  - rewrite (update_collection_refused self None name w Hr).
    split; [reflexivity | discriminate].
Qed.

Lemma update_collection_None_noop_witness :
  after (PgvectorService.update_collection svc None "A") store_AB = store_AB /\
  PgvectorService.update_collection svc None "A" store_AB = (Returns tt, store_AB).
Proof.
  destruct (update_collection_None_noop svc "A" store_AB) as [H1 H2].
  split; [exact H1 | apply H2; reflexivity].
Defined.

(** ** Updating with an empty list *)




(** ** What the documentation promises and the store does not show *)

(** C1, at a store where "A" holds two chunks: the update returns, and the
    collection still holds its two chunks and not the new one. *)
Lemma update_collection_replacement_discarded :
  let w' := after (PgvectorService.update_collection svc (Some [doc "red car"]) "A")
                  store_A in
  fst (PgvectorService.update_collection svc (Some [doc "red car"]) "A" store_A)
  = Returns tt /\
  map document (rows_of "A" store_A) = ["red fox"; "blue sky"] /\
  map document (rows_of "A" w') = ["red fox"; "blue sky"] /\
  map document (stored_rows w') = ["red fox"; "blue sky"].
Proof. repeat split; reflexivity. Qed.

(** C3, at a server without collections: the update returns, and the name
    is not listed. *)
Lemma update_collection_not_listed :
  let w' := after (PgvectorService.update_collection svc (Some [doc "red fox"]) "A")
                  fresh_server in
  fst (PgvectorService.update_collection svc (Some [doc "red fox"]) "A" fresh_server)
  = Returns tt /\
  fst (PgvectorService.get_collections svc w') = Returns [].
Proof. split; reflexivity. Qed.

(** C8, at a store where "A" and "B" are registered: the deletion returns,
    and returns again, and "A" is still listed with its rows. *)
Lemma delete_collection_still_listed :
  let w' := after (PgvectorService.delete_collection svc "A") store_AB in
  fst (PgvectorService.delete_collection svc "A" store_AB) = Returns tt /\
  fst (PgvectorService.delete_collection svc "A" w') = Returns tt /\
  fst (PgvectorService.get_collections svc w') = Returns ["A"; "B"] /\
  map document (rows_of "A" w') = ["red fox"; "blue sky"].
Proof. repeat split; reflexivity. Qed.

(** X5. Nothing the service writes is kept: for every argument and every
    state of the server, and whether the call returns or raises,
    [update_collection], [update_pgvector_collection] and
    [delete_collection] leave both tables exactly as they were (and absent
    if they were absent). *)
Theorem collection_management_discards_writes
        (self : PgvectorService.t) (docs : option (list Document))
        (chunks : list Document) (name : string) (overwrite : bool) (w : world) :
  schema (after (PgvectorService.update_collection self docs name) w) = schema w /\
  schema (after (PgvectorService.update_pgvector_collection self chunks name
                   overwrite) w) = schema w /\
  schema (after (PgvectorService.delete_collection self name) w) = schema w.
Proof.
  split; [|split].
  - destruct docs as [docs|].
    + apply (update_collection_after self docs name w).
    + unfold after. destruct (reachable w) eqn:Hr.
      * now rewrite (update_collection_None_run self name w Hr).
      * now rewrite (update_collection_refused self None name w Hr).
  - apply (update_pgvector_collection_after self chunks name overwrite w).
  - apply (delete_collection_after self name w).
Qed.

(** A text with a NUL character makes the update raise. *)
Example nul_text_raises :
  fst (PgvectorService.update_collection svc (Some [doc nul_text]) "A" store_AB)
  = Raises ValueError.
Proof. reflexivity. Qed.

(** ** Other collections, round trips, provider calls, the invariant *)

Lemma wf_fresh_server : wf fresh_server.
Proof. constructor; cbn; try constructor; contradiction. Qed.

Lemma wf_store_A : wf store_A.
Proof.
  constructor; cbn.
  - repeat constructor; cbn; intuition discriminate.
  - repeat constructor; cbn; intuition discriminate.
  - intros c [<-|[]]; cbn; lia.
  - intros e [<-|[<-|[]]]; cbn; lia.
  - intros e [<-|[<-|[]]]; cbn; lia.
Qed.

Lemma wf_store_AB : wf store_AB.
Proof.
  constructor; cbn.
  - repeat constructor; cbn; intuition discriminate.
  - repeat constructor; cbn; intuition discriminate.
  - intros c [<-|[<-|[]]]; cbn; lia.
  - intros e [<-|[<-|[<-|[]]]]; cbn; lia.
  - intros e [<-|[<-|[<-|[]]]]; cbn; lia.
Qed.

(** X6. An update of one collection leaves every other collection alone:
    on a well-formed store, a name other than the updated one is registered
    afterwards exactly when it was before, and its collection holds the
    rows it held, in the same order. *)
Theorem update_collection_leaves_others
        (self : PgvectorService.t) (docs : list Document) (name other : string)
        (w w' : world) :
  wf w ->
  other <> name ->
  PgvectorService.update_collection self (Some docs) name w = (Returns tt, w') ->
  (registered other w' <-> registered other w) /\
  rows_of other w' = rows_of other w.
Proof.
  intros Hwf Hne Hrun.
  destruct (update_collection_after self docs name w) as (_ & Hs & _ & _).
  unfold after in Hs. rewrite Hrun in Hs. cbn [snd] in Hs.
  unfold registered. now rewrite (registry_schema _ _ Hs), (rows_of_schema other _ _ Hs).
Qed.

Lemma update_collection_leaves_others_witness :
  let w' := after (PgvectorService.update_collection svc (Some [doc "x"]) "A")
                  store_AB in
  (registered "B" w' <-> registered "B" store_AB) /\
  rows_of "B" w' = rows_of "B" store_AB.
Proof.
  apply (update_collection_leaves_others svc [doc "x"] "A" "B" store_AB).
  - exact wf_store_AB.
  - discriminate.
  - reflexivity.
Defined.

(** X8. Writing a new collection and deleting it again is a round trip on
    the tables: on a well-formed store where the name was not registered,
    both tables hold afterwards exactly the rows they held before. *)
Theorem update_then_delete_restores
        (self : PgvectorService.t) (docs : list Document) (name : string)
        (w : world) :
  wf w ->
  reachable w = true ->
  ~ registered name w ->
  let w1 := after (PgvectorService.update_collection self (Some docs) name) w in
  let w2 := after (PgvectorService.delete_collection self name) w1 in
  registry w2 = registry w /\ stored_rows w2 = stored_rows w.
Proof.
  intros Hwf Hr Hnot w1 w2.
  destruct (update_collection_after self docs name w) as (_ & Hs1 & _ & _).
  destruct (delete_collection_after self name w1) as (_ & Hs2 & _ & _).
  fold w1 in Hs1. fold w2 in Hs2.
  assert (Hs : schema w2 = schema w) by congruence.
  split; [now apply registry_schema | now apply stored_rows_schema].
Qed.

Lemma update_then_delete_restores_witness :
  let w1 := after (PgvectorService.update_collection svc (Some [doc "x"]) "C")
                  store_AB in
  let w2 := after (PgvectorService.delete_collection svc "C") w1 in
  registry w2 = registry store_AB /\ stored_rows w2 = stored_rows store_AB.
Proof.
  apply (update_then_delete_restores svc [doc "x"] "C" store_AB).
  - exact wf_store_AB.
  - reflexivity.
  - cbn. intros [H|[H|[]]]; discriminate.
Defined.

(** X11. The provider is asked for document vectors once per update, for
    all the texts of [docs] in one batch and in their order, and only after
    the connection has been opened; [delete_collection] never calls it, and
    [get_collections] changes nothing at all. *)
Theorem provider_calls_of_collection_management
        (self : PgvectorService.t) (docs : list Document) (name : string)
        (w : world) :
  embed_log (after (PgvectorService.update_collection self (Some docs) name) w)
  = (if reachable w
     then embed_log w ++ [EmbedDocuments (map page_content docs)]
     else embed_log w)%list /\
  embed_log (after (PgvectorService.delete_collection self name) w) = embed_log w /\
  after (PgvectorService.get_collections self) w = w.
Proof.
  split; [|split].
  - apply (update_collection_after self docs name w).
  - apply (delete_collection_after self name w).
  - unfold after. destruct (reachable w) eqn:Hr.
    + now rewrite (get_collections_connected self w Hr).
    + now rewrite (get_collections_refused self w Hr).
Qed.

(** ** Searching *)

Lemma insert_asc_perm (r : result_row) (rs : list result_row) :
  Permutation (r :: rs) (insert_asc r rs).
Proof.
  induction rs as [|r' rs IH]; cbn; [reflexivity|].
  destruct (Qle_bool (distance r) (distance r')); [reflexivity|].
  rewrite perm_swap. now constructor.
Qed.

Lemma order_by_asc_perm (rs : list result_row) :
  Permutation rs (order_by_asc rs).
Proof.
  induction rs as [|r rs IH]; cbn; [constructor|].
  rewrite <- insert_asc_perm. now constructor.
Qed.

Lemma insert_asc_sorted (r : result_row) (rs : list result_row) :
  Sorted asc rs -> Sorted asc (insert_asc r rs).
Proof.
  induction rs as [|r' rs IH]; cbn; intros Hs.
  - repeat constructor.
  - destruct (Qle_bool (distance r) (distance r')) eqn:Hle.
    + constructor; [exact Hs|]. constructor. now apply Qle_bool_iff.
    + assert (Hr : asc r' r).
      { unfold asc. apply Qlt_le_weak, Qnot_le_lt. intros H.
        apply Qle_bool_iff in H. congruence. }
      apply Sorted_inv in Hs. destruct Hs as [Hs Hhd].
      constructor; [now apply IH|].
      destruct rs as [|r'' rs]; cbn.
      * now constructor.
      * destruct (Qle_bool (distance r) (distance r'')); constructor; auto.
        now inversion Hhd.
Qed.

Lemma order_by_asc_sorted (rs : list result_row) : Sorted asc (order_by_asc rs).
Proof.
  induction rs as [|r rs IH]; cbn; [constructor | now apply insert_asc_sorted].
Qed.

Lemma asc_trans : Relations_1.Transitive asc.
Proof. intros a b c Hab Hbc. unfold asc in *. now apply Qle_trans with (distance b). Qed.



Lemma firstn_incl {A} (n : nat) (l : list A) : incl (firstn n l) l.
Proof.
  revert l. induction n as [|n IH]; intros [|a l]; cbn; try easy.
  intros x [<-|Hx]; [now left | right; now apply IH].
Qed.

Lemma Sorted_map_inv {A B} (R : A -> A -> Prop) (R' : B -> B -> Prop) (f : A -> B)
      (xs : list A) :
  (forall a b, R' (f a) (f b) -> R a b) ->
  Sorted R' (map f xs) -> Sorted R xs.
Proof.
  intros Hf. induction xs as [|x xs IH]; cbn; intros Hs; [constructor|].
  apply Sorted_inv in Hs. destruct Hs as [Hs Hhd].
  constructor; [now apply IH|].
  destruct xs as [|y xs]; constructor. apply Hf. now inversion Hhd.
Qed.

Lemma StronglySorted_app_le {A} (R : A -> A -> Prop) (l1 l2 : list A) :
  StronglySorted R (l1 ++ l2) ->
  forall x y, In x l1 -> In y l2 -> R x y.
Proof.
  induction l1 as [|a l1 IH]; cbn; intros Hs x y Hx Hy; [contradiction|].
  apply StronglySorted_inv in Hs. destruct Hs as [Hs Hall].
  destruct Hx as [<-|Hx].
  - rewrite Forall_forall in Hall. apply Hall. apply in_or_app. now right.
  - now apply IH.
Qed.

Section SearchProperties.
Variable cosine_distance : vector -> vector -> Q.

Lemma same_dimension_all (v : vector) (rows : list embedding_row) :
  (forall e, In e rows -> List.length (embedding e) = List.length v) ->
  forallb (PgvectorService.same_dimension v) rows = true.
Proof.
  intros H. apply forallb_forall. intros e He.
  unfold PgvectorService.same_dimension. apply Nat.eqb_eq. now apply H.
Qed.

Lemma search_run (self : PgvectorService.t) (query : string) (k : Z)
      (w : world) (tb : tables) :
  reachable w = true ->
  schema w = Some tb ->
  (0 <= k <= 9223372036854775807)%Z ->
  ((0 < k)%Z ->
   forall e, In e (stored_rows w) ->
     List.length (embedding e)
     = List.length (embed_query (PgvectorService.embeddings self) query)) ->
  PgvectorService.custom_similarity_search_with_scores cosine_distance self query k w
  = (Returns (map PgvectorService.to_doc_score
                  (firstn (Z.to_nat k) (ranked cosine_distance self query w))),
     logged (EmbedQuery query) w).
Proof.
  intros Hr Hs Hk Hdim.
  assert (Hrows : stored_rows w = langchain_pg_embedding tb)
    by (unfold stored_rows; now rewrite Hs).
  rewrite Hrows in Hdim.
  unfold PgvectorService.custom_similarity_search_with_scores,
    PgvectorService.get_vector, PgvectorService.query_order_limit,
    bind, record_call, engine_connect, the_tables, ret, raise, ranked, logged.
  cbn [reachable schema]. rewrite Hr, Hs, Hrows. cbn [reachable schema].
  cbv beta iota.
  destruct (k <? 0)%Z eqn:Hneg; [apply Z.ltb_lt in Hneg; lia|].
  destruct (9223372036854775807 <? k)%Z eqn:Hbig; [apply Z.ltb_lt in Hbig; lia|].
  destruct (0 <? k)%Z eqn:Hpos; cbn [andb]; [|reflexivity].
  apply Z.ltb_lt in Hpos.
  now rewrite (same_dimension_all _ _ (Hdim Hpos)).
Qed.


Lemma search_after (self : PgvectorService.t) (query : string) (k : Z) (w : world) :
  snd (PgvectorService.custom_similarity_search_with_scores
         cosine_distance self query k w)
  = logged (EmbedQuery query) w.
Proof.
  unfold PgvectorService.custom_similarity_search_with_scores,
    PgvectorService.get_vector, PgvectorService.query_order_limit,
    bind, record_call, engine_connect, the_tables, ret, raise, logged.
  cbn [reachable schema].
  destruct (reachable w); [|reflexivity].
  destruct (schema w); [|reflexivity].
  cbn [schema]. cbv beta iota.
  destruct (k <? 0)%Z; [reflexivity|].
  destruct (9223372036854775807 <? k)%Z; [reflexivity|].
  match goal with |- context [if ?b then _ else _] => destruct b end; reflexivity.
Qed.

Lemma ranked_sorted (self : PgvectorService.t) (query : string) (w : world) :
  Sorted asc (ranked cosine_distance self query w).
Proof. apply order_by_asc_sorted. Qed.

Lemma ranked_perm (self : PgvectorService.t) (query : string) (w : world) :
  Permutation
    (map (PgvectorService.select_row cosine_distance
            (embed_query (PgvectorService.embeddings self) query))
         (stored_rows w))
    (ranked cosine_distance self query w).
Proof. apply order_by_asc_perm. Qed.

Lemma ranked_length (self : PgvectorService.t) (query : string) (w : world) :
  List.length (ranked cosine_distance self query w) = List.length (stored_rows w).
Proof.
  rewrite <- (Permutation_length (ranked_perm self query w)). apply length_map.
Qed.

Lemma ranked_In (self : PgvectorService.t) (query : string) (w : world)
      (r : result_row) :
  In r (ranked cosine_distance self query w) <->
  exists e, In e (stored_rows w) /\
            r = PgvectorService.select_row cosine_distance
                  (embed_query (PgvectorService.embeddings self) query) e.
Proof.
  split.
  - intros H. apply (Permutation_in _ (Permutation_sym (ranked_perm _ _ _))) in H.
    apply in_map_iff in H. destruct H as (e & <- & He). now exists e.
  - intros (e & He & ->). apply (Permutation_in _ (ranked_perm _ _ _)).
    now apply in_map.
Qed.

(** The ranking, as stored rows: all of them, nearest first. *)
Lemma ranked_rows (self : PgvectorService.t) (query : string) (w : world) :
  let v := embed_query (PgvectorService.embeddings self) query in
  exists es,
    Permutation (stored_rows w) es /\
    ranked cosine_distance self query w
    = map (PgvectorService.select_row cosine_distance v) es /\
    Sorted (fun a b => cosine_distance (embedding a) v
                       <= cosine_distance (embedding b) v) es.
Proof.
  intros v.
  destruct (Permutation_map_inv _ _ (Permutation_sym (ranked_perm self query w)))
    as (es & Heq & Hperm).
  exists es. split; [exact Hperm|]. split; [exact Heq|].
  pose proof (ranked_sorted self query w) as Hs. rewrite Heq in Hs.
  apply (Sorted_map_inv _ asc (PgvectorService.select_row cosine_distance v));
    [|exact Hs].
  intros a b H. exact H.
Qed.

(** Whatever a search returns is the scored image of stored rows. *)
Lemma search_results_stored (self : PgvectorService.t) (query : string) (k : Z)
      (w w' : world) (results : list (Document * Q)) :
  PgvectorService.custom_similarity_search_with_scores cosine_distance self query k w
  = (Returns results, w') ->
  forall r, In r results ->
    exists e, In e (stored_rows w) /\
              r = PgvectorService.to_doc_score
                    (PgvectorService.select_row cosine_distance
                       (embed_query (PgvectorService.embeddings self) query) e).
Proof.
  intros Hrun r Hr.
  unfold PgvectorService.custom_similarity_search_with_scores,
    PgvectorService.get_vector, PgvectorService.query_order_limit,
    bind, record_call, engine_connect, the_tables, ret, raise in Hrun.
  cbn [reachable schema] in Hrun.
  destruct (reachable w); [|discriminate].
  destruct (schema w) as [tb|] eqn:Hs; [|discriminate].
  cbn [schema] in Hrun. cbv beta iota in Hrun.
  destruct (k <? 0)%Z; [discriminate|].
  destruct (9223372036854775807 <? k)%Z; [discriminate|].
  match type of Hrun with
  | context [if ?b then _ else _] => destruct b
  end; [discriminate|].
  injection Hrun as <- _.
  apply in_map_iff in Hr. destruct Hr as (row & <- & Hrow).
  apply firstn_incl in Hrow.
  apply (Permutation_in _ (Permutation_sym (order_by_asc_perm _))) in Hrow.
  apply in_map_iff in Hrow. destruct Hrow as (e & <- & He).
  exists e. split; [|reflexivity]. unfold stored_rows. now rewrite Hs.
Qed.

End SearchProperties.

Section SearchTheorems.
Variable cosine_distance : vector -> vector -> Q.



(** X2. With the connection open, the tables present, [k] from 0 to
    2^63 - 1 and every stored vector of the dimension of the query's, a
    search returns exactly [min k n] results, [n] being the number of rows
    stored in all collections together, and each result is the text of a
    stored row with 1 minus its distance as score. *)
Theorem search_result_count (self : PgvectorService.t) (query : string) (k : Z)
        (w : world) (tb : tables) :
  let v := embed_query (PgvectorService.embeddings self) query in
  reachable w = true ->
  schema w = Some tb ->
  (0 <= k <= 9223372036854775807)%Z ->
  (forall e, In e (stored_rows w) -> List.length (embedding e) = List.length v) ->
  exists results,
    fst (PgvectorService.custom_similarity_search_with_scores
           cosine_distance self query k w) = Returns results /\
    List.length results = Nat.min (Z.to_nat k) (List.length (stored_rows w)) /\
    forall r, In r results ->
      exists e, In e (stored_rows w) /\
                r = (mkDocument (document e) "{}",
                     1 - cosine_distance (embedding e) v).
Proof.
  intros v Hr Hs Hk Hdim.
  pose proof (search_run cosine_distance self query k w tb Hr Hs Hk (fun _ => Hdim))
    as Hrun.
  eexists. split; [now rewrite Hrun|]. split.
  - now rewrite length_map, length_firstn, ranked_length.
  - intros r Hin.
    destruct (search_results_stored cosine_distance self query k w _ _ Hrun r Hin)
      as (e & He & ->).
    now exists e.
Qed.

(** X3. Under the same conditions the rows a search returns are nearest
    ones: the stored rows are the returned rows and the omitted rows up to
    order, the results are the scored texts of the returned rows, and no
    omitted row is nearer to the query than a returned one, whatever the
    collections the rows belong to. *)
Theorem search_returns_nearest (self : PgvectorService.t) (query : string)
        (k : Z) (w : world) (tb : tables) :
  let v := embed_query (PgvectorService.embeddings self) query in
  reachable w = true ->
  schema w = Some tb ->
  (0 <= k <= 9223372036854775807)%Z ->
  (forall e, In e (stored_rows w) -> List.length (embedding e) = List.length v) ->
  exists returned omitted,
    fst (PgvectorService.custom_similarity_search_with_scores
           cosine_distance self query k w)
    = Returns (map (fun e => (mkDocument (document e) "{}",
                              1 - cosine_distance (embedding e) v)) returned) /\
    Permutation (stored_rows w) (returned ++ omitted) /\
    forall r o, In r returned -> In o omitted ->
      cosine_distance (embedding r) v <= cosine_distance (embedding o) v.
Proof.
  intros v Hr Hs Hk Hdim.
  destruct (ranked_rows cosine_distance self query w) as (es & Hperm & Hranked & Hsorted).
  fold v in Hranked, Hsorted.
  exists (firstn (Z.to_nat k) es), (skipn (Z.to_nat k) es).
  split; [|split].
  - rewrite (search_run cosine_distance self query k w tb Hr Hs Hk (fun _ => Hdim)).
    cbn [fst]. rewrite Hranked, firstn_map, map_map. reflexivity.
  - now rewrite firstn_skipn.
  - apply (StronglySorted_app_le
             (fun a b => cosine_distance (embedding a) v
                         <= cosine_distance (embedding b) v)).
    rewrite firstn_skipn. apply Sorted_StronglySorted; [|exact Hsorted].
    intros a b c Hab Hbc. now apply Qle_trans with (cosine_distance (embedding b) v).
Qed.

End SearchTheorems.



(** The scenario of two collections: the query for "red fox" meets its own
    chunk first, at score 1, then "red car" at a score between 0.99 and 1. *)
Example search_red_fox :
  let s := 300000000 # 301846171 in
  fst (PgvectorService.custom_similarity_search_with_scores cosine_distance_9 svc
         "red fox" 2 store_AB)
  = Returns [(doc "red fox", 1); (doc "red car", s)] /\
  99 # 100 < s /\ s < 1.
Proof. split; [vm_compute; reflexivity|]. split; reflexivity. Qed.

Example search_more_than_stored :
  map (fun r => page_content (fst r))
      match fst (PgvectorService.custom_similarity_search_with_scores
                   cosine_distance_9 svc "red fox" 10 store_AB) with
      | Returns results => results
      | Raises _ => []
      end
  = ["red fox"; "red car"; "blue sky"].
Proof. vm_compute. reflexivity. Qed.

(** The query needs the tables: where no [PGVector] object has created them
    yet, it raises. *)
Example search_without_tables :
  fst (PgvectorService.custom_similarity_search_with_scores cosine_distance_9 svc
         "red fox" 3 fresh_server)
  = Raises ProgrammingError.
Proof. vm_compute. reflexivity. Qed.




(** ** Exact matches *)

(** C7, as stated, fails: the chunk "y" is stored with the vector of the
    query "y", and yet the first result is the chunk "x", stored with the
    same vector. *)
Lemma search_exact_match_not_first :
  (exists e, In e (stored_rows store_xy) /\
             document e = "y" /\ embedding e = embed_query stub "y") /\
  fst (PgvectorService.custom_similarity_search_with_scores cosine_distance_9 svc
         "y" 3 store_xy)
  = Returns [(doc "x", 1); (doc "y", 1)].
Proof.
  split; [|vm_compute; reflexivity].
  eexists. split; [right; left; reflexivity|]. split; reflexivity.
Qed.

Section ExactMatch.
Variable cosine_distance : vector -> vector -> Q.

(** C7, amended. Let a stored row carry the vector [v] of the query, let
    the operator put [v] at distance 0 from itself and no stored vector
    at a negative distance from [v], let every stored vector have the
    dimension of [v], and let [k] be from 1 to 2^63 - 1, with the
    connection open.  Then the search returns a first result with score 1,
    which is the text of a stored row at distance 0; it is the text of the
    row in question when every stored row at distance 0 carries that text.
    Each result is the text of a stored row with 1 minus its distance as
    score. *)
Theorem search_exact_match (self : PgvectorService.t) (query : string) (k : Z)
        (w : world) (tb : tables) (e : embedding_row) :
  let v := embed_query (PgvectorService.embeddings self) query in
  reachable w = true ->
  schema w = Some tb ->
  (1 <= k <= 9223372036854775807)%Z ->
  In e (stored_rows w) ->
  embedding e = v ->
  (forall e', In e' (stored_rows w) -> List.length (embedding e') = List.length v) ->
  cosine_distance v v == 0 ->
  (forall e', In e' (stored_rows w) -> 0 <= cosine_distance (embedding e') v) ->
  exists first rest,
    PgvectorService.custom_similarity_search_with_scores cosine_distance self query k w
    = (Returns (first :: rest), logged (EmbedQuery query) w) /\
    snd first == 1 /\
    (forall r, In r (first :: rest) ->
       exists e', In e' (stored_rows w) /\
                  r = (mkDocument (document e') "{}",
                       1 - cosine_distance (embedding e') v)) /\
    ((forall e', In e' (stored_rows w) ->
                 cosine_distance (embedding e') v == 0 ->
                 document e' = document e) ->
     page_content (fst first) = document e).
Proof.
  intros v Hr Hs Hk He Hv Hdim Hzero Hnonneg.
  pose proof (ranked_sorted cosine_distance self query w) as Hsorted.
  assert (Hin : In (PgvectorService.select_row cosine_distance v e)
                   (ranked cosine_distance self query w)).
  { apply ranked_In. now exists e. }
  assert (Hrun := search_run cosine_distance self query k w tb Hr Hs
                    ltac:(lia) (fun _ => Hdim)).
  destruct (ranked cosine_distance self query w) as [|r0 rs] eqn:Hranked;
    [contradiction|].
  assert (Hk' : exists n, Z.to_nat k = S n).
  { exists (Nat.pred (Z.to_nat k)). lia. }
  destruct Hk' as [n Hn].
  assert (Hr0 : In r0 (ranked cosine_distance self query w)).
  { rewrite Hranked. now left. }
  apply ranked_In in Hr0. destruct Hr0 as (e0 & He0 & Hr0). fold v in Hr0.
  assert (Hd0 : cosine_distance (embedding e0) v == 0).
  { apply Qle_antisym; [|now apply Hnonneg].
    apply (Sorted_StronglySorted asc_trans) in Hsorted.
    apply StronglySorted_inv in Hsorted. destruct Hsorted as [_ Hall].
    destruct Hin as [Heq | Hin].
    - rewrite Hr0 in Heq. unfold PgvectorService.select_row in Heq.
      injection Heq as _ _ Heq. rewrite Heq, Hv, Hzero. apply Qle_refl.
    - rewrite Forall_forall in Hall. specialize (Hall _ Hin).
      unfold asc, distance in Hall. rewrite Hr0 in Hall.
      cbn in Hall. rewrite Hv, Hzero in Hall. exact Hall. }
  exists (PgvectorService.to_doc_score r0),
         (map PgvectorService.to_doc_score (firstn n rs)).
  split; [|split; [|split]].
  - rewrite Hrun, Hn. reflexivity.
  - rewrite Hr0. cbn. fold v. rewrite Hd0. reflexivity.
  - intros r Hrin.
    change (PgvectorService.to_doc_score r0
              :: map PgvectorService.to_doc_score (firstn n rs))
      with (map PgvectorService.to_doc_score (r0 :: firstn n rs)) in Hrin.
    apply in_map_iff in Hrin. destruct Hrin as (r' & <- & Hr').
    assert (Hr'' : In r' (ranked cosine_distance self query w)).
    { rewrite Hranked. destruct Hr' as [<-|Hr']; [now left | right].
      now apply (firstn_incl n rs). }
    apply ranked_In in Hr''. destruct Hr'' as (e' & He' & ->).
    exists e'. split; [exact He' | reflexivity].
  - intros Hunique. rewrite Hr0. cbn. now apply Hunique.
Qed.

End ExactMatch.

Lemma search_exact_match_witness :
  exists first rest,
    PgvectorService.custom_similarity_search_with_scores cosine_distance_9 svc
      "red fox" 2 store_AB
    = (Returns (first :: rest), logged (EmbedQuery "red fox") store_AB) /\
    snd first == 1 /\
    (forall r, In r (first :: rest) ->
       exists e', In e' (stored_rows store_AB) /\
                  r = (mkDocument (document e') "{}",
                       1 - cosine_distance_9 (embedding e') (embed_query stub "red fox"))) /\
    ((forall e', In e' (stored_rows store_AB) ->
                 cosine_distance_9 (embedding e') (embed_query stub "red fox") == 0 ->
                 document e' = "red fox") ->
     page_content (fst first) = "red fox").
Proof.
  apply (search_exact_match cosine_distance_9 svc "red fox" 2 store_AB
           (tables_of store_AB)
           (mkEmbedding 2%N [1; 0] "red fox" "{}" 0%N 3%N)).
  - reflexivity.
  - reflexivity.
  - lia.
  - left. reflexivity.
  - reflexivity.
  - intros e' He'. cbn in He'. destruct He' as [<-|[<-|[<-|[]]]]; reflexivity.
  - reflexivity.
  - intros e' He'. cbn in He'.
    destruct He' as [<-|[<-|[<-|[]]]]; vm_compute; discriminate.
Defined.

(** * Further properties of the service *)

(** ** What a search does to the store, and what it returns *)

Section SearchFurther.
Variable cosine_distance : vector -> vector -> Q.

(** X1. A search never writes: whatever its arguments and whether it
    returns or raises, it leaves the tables, the identifier supply and the
    state of the connection as they were.  It asks the provider for the
    vector of the query exactly once, and does so before it contacts the
    server, so the call is made even when the search then fails. *)
Theorem search_only_logs (self : PgvectorService.t) (query : string) (k : Z)
        (w : world) :
  after (PgvectorService.custom_similarity_search_with_scores
           cosine_distance self query k) w
  = logged (EmbedQuery query) w.
Proof.
  unfold after. destruct (reachable w) eqn:Hr.
  - now rewrite search_after.
  - unfold PgvectorService.custom_similarity_search_with_scores,
      PgvectorService.get_vector, PgvectorService.query_order_limit,
      bind, record_call, engine_connect, logged.
    cbn [reachable]. now rewrite Hr.
Qed.

(** X4. When the operator puts every stored vector at a distance between 0
    and 2 from the vector of the query, every score a search returns lies
    between -1 and 1. *)
Theorem search_scores_in_range (self : PgvectorService.t) (query : string)
        (k : Z) (w w' : world) (results : list (Document * Q)) :
  (forall e, In e (stored_rows w) ->
     0 <= cosine_distance (embedding e)
            (embed_query (PgvectorService.embeddings self) query) <= 2) ->
  PgvectorService.custom_similarity_search_with_scores cosine_distance self query k w
  = (Returns results, w') ->
  forall r, In r results -> -(1) <= snd r <= 1.
Proof.
  intros Hrange Hrun r Hin.
  destruct (search_results_stored cosine_distance self query k w w' results Hrun r Hin)
    as (e & He & ->).
  specialize (Hrange e He). cbn.
  set (d := cosine_distance (embedding e)
              (embed_query (PgvectorService.embeddings self) query)) in *.
  unfold PgvectorService.select_row. cbn [snd]. fold d. lra.
Qed.

End SearchFurther.

Lemma search_result_count_witness :
  exists results,
    fst (PgvectorService.custom_similarity_search_with_scores
           cosine_distance_9 svc "red fox" 2 store_AB) = Returns results /\
    List.length results = Nat.min 2 (List.length (stored_rows store_AB)) /\
    forall r, In r results ->
      exists e, In e (stored_rows store_AB) /\
                r = (mkDocument (document e) "{}",
                     1 - cosine_distance_9 (embedding e) (embed_query stub "red fox")).
Proof.
  apply (search_result_count cosine_distance_9 svc "red fox" 2 store_AB
           (tables_of store_AB)).
  - reflexivity.
  - reflexivity.
  - lia.
  - intros e He. cbn in He. destruct He as [<-|[<-|[<-|[]]]]; reflexivity.
Defined.

Lemma search_returns_nearest_witness :
  exists returned omitted,
    fst (PgvectorService.custom_similarity_search_with_scores
           cosine_distance_9 svc "red fox" 2 store_AB)
    = Returns (map (fun e => (mkDocument (document e) "{}",
                              1 - cosine_distance_9 (embedding e)
                                    (embed_query stub "red fox"))) returned) /\
    Permutation (stored_rows store_AB) (returned ++ omitted) /\
    forall r o, In r returned -> In o omitted ->
      cosine_distance_9 (embedding r) (embed_query stub "red fox")
      <= cosine_distance_9 (embedding o) (embed_query stub "red fox").
Proof.
  apply (search_returns_nearest cosine_distance_9 svc "red fox" 2 store_AB
           (tables_of store_AB)).
  - reflexivity.
  - reflexivity.
  - lia.
  - intros e He. cbn in He. destruct He as [<-|[<-|[<-|[]]]]; reflexivity.
Defined.

Lemma search_scores_in_range_witness :
  -(1) <= snd (doc "red car", 300000000 # 301846171) <= 1.
Proof.
  apply (search_scores_in_range cosine_distance_9 svc "red fox" 2 store_AB
           (logged (EmbedQuery "red fox") store_AB)
           [(doc "red fox", 1); (doc "red car", 300000000 # 301846171)]).
  - intros e He. cbn in He.
    destruct He as [<-|[<-|[<-|[]]]]; vm_compute; split; discriminate.
  - vm_compute. reflexivity.
  - right. left. reflexivity.
Defined.

(** ** The invariant *)

Lemma wf_logged (c : embed_call) (w : world) : wf w -> wf (logged c w).
Proof. intros [H1 H2 H3 H4 H5]. constructor; assumption. Qed.

(** X12. Every operation of the service keeps the store well formed:
    names stay registered at most once, [uuid] stays a key of the registry,
    and every identifier in the tables stays below the supply, whether the
    operation returns or raises. *)
Theorem service_keeps_wf (cosine_distance : vector -> vector -> Q)
        (self : PgvectorService.t) (w : world) :
  wf w ->
  (forall docs name,
      wf (after (PgvectorService.update_collection self docs name) w)) /\
  (forall name, wf (after (PgvectorService.delete_collection self name) w)) /\
  (forall query k,
      wf (after (PgvectorService.custom_similarity_search_with_scores
                   cosine_distance self query k) w)) /\
  wf (after (PgvectorService.get_collections self) w).
Proof.
  intros Hwf. split; [|split; [|split]].
  - intros [docs|] name.
    + destruct (update_collection_after self docs name w) as (_ & Hs & Hn & _).
      exact (wf_grow _ _ Hs Hn Hwf).
    + unfold after. destruct (reachable w) eqn:Hr.
      * now rewrite (update_collection_None_run self name w Hr).
      * now rewrite (update_collection_refused self None name w Hr).
  - intros name.
    destruct (delete_collection_after self name w) as (_ & Hs & Hn & _).
    exact (wf_grow _ _ Hs Hn Hwf).
  - intros query k. unfold after. rewrite search_after. now apply wf_logged.
  - unfold after. destruct (reachable w) eqn:Hr.
    + now rewrite (get_collections_connected self w Hr).
    + now rewrite (get_collections_refused self w Hr).
Qed.

Lemma service_keeps_wf_witness :
  (forall docs name,
      wf (after (PgvectorService.update_collection svc docs name) store_AB)) /\
  (forall name, wf (after (PgvectorService.delete_collection svc name) store_AB)) /\
  (forall query k,
      wf (after (PgvectorService.custom_similarity_search_with_scores
                   cosine_distance_9 svc query k) store_AB)) /\
  wf (after (PgvectorService.get_collections svc) store_AB).
Proof.
  apply (service_keeps_wf cosine_distance_9 svc store_AB). exact wf_store_AB.
Defined.

(** ** The script *)

Section Script.
Variable cosine_distance : vector -> vector -> Q.

(** X13. On a store whose tables hold no row, [run_query_multi_pgvector]
    fails with the [IndexError] of [docs[0]]: the search returns the empty
    list, nothing is printed, and the tables are left as they were. *)
Theorem run_query_multi_pgvector_empty_store
        (docsearch : PgvectorService.t) (query : string) (w : world)
        (tb : tables) (stdout : list string) :
  reachable w = true ->
  schema w = Some tb ->
  stored_rows w = [] ->
  run_query_multi_pgvector cosine_distance docsearch query w stdout
  = (Failed IndexError, logged (EmbedQuery query) w, stdout).
Proof.
  intros Hr Hs Hempty. unfold run_query_multi_pgvector.
  rewrite (search_run cosine_distance docsearch query 4 w tb Hr Hs).
  - unfold ranked. rewrite Hempty. reflexivity.
  - lia.
  - intros _ e He. rewrite Hempty in He. contradiction.
Qed.

(** X14. On a store that holds at least one row, all stored vectors being
    of the dimension of the query's, [run_query_multi_pgvector] prints one
    line: the text of a stored row that no stored row of any collection
    beats in distance to the query. *)
Theorem run_query_multi_pgvector_prints_nearest
        (docsearch : PgvectorService.t) (query : string) (w : world)
        (tb : tables) (stdout : list string) :
  let v := embed_query (PgvectorService.embeddings docsearch) query in
  reachable w = true ->
  schema w = Some tb ->
  stored_rows w <> [] ->
  (forall e, In e (stored_rows w) -> List.length (embedding e) = List.length v) ->
  exists e,
    In e (stored_rows w) /\
    run_query_multi_pgvector cosine_distance docsearch query w stdout
    = (Done, logged (EmbedQuery query) w, (stdout ++ [document e])%list) /\
    forall e', In e' (stored_rows w) ->
      cosine_distance (embedding e) v <= cosine_distance (embedding e') v.
Proof.
  intros v Hr Hs Hrows Hdim.
  pose proof (ranked_sorted cosine_distance docsearch query w) as Hsorted.
  pose proof (ranked_length cosine_distance docsearch query w) as Hlen.
  pose proof (ranked_In cosine_distance docsearch query w) as Hmem.
  assert (Hrun := search_run cosine_distance docsearch query 4 w tb Hr Hs
                    ltac:(lia) (fun _ => Hdim)).
  destruct (ranked cosine_distance docsearch query w) as [|r0 rs] eqn:Hranked.
  { destruct (stored_rows w); [contradiction | discriminate]. }
  destruct (proj1 (Hmem r0) (or_introl eq_refl)) as (e & He & Hr0).
  exists e. split; [exact He|]. split.
  - unfold run_query_multi_pgvector. rewrite Hrun, Hr0. reflexivity.
  - intros e' He'.
    apply (Sorted_StronglySorted asc_trans) in Hsorted.
    apply StronglySorted_inv in Hsorted. destruct Hsorted as [_ Hall].
    assert (Hin : In (PgvectorService.select_row cosine_distance v e') (r0 :: rs)).
    { apply Hmem. now exists e'. }
    destruct Hin as [Heq | Hin].
    + rewrite Hr0 in Heq. unfold PgvectorService.select_row in Heq.
      injection Heq as _ _ Heq. fold v in Heq. rewrite Heq. apply Qle_refl.
    + rewrite Forall_forall in Hall. specialize (Hall _ Hin).
      unfold asc, distance in Hall. rewrite Hr0 in Hall. exact Hall.
Qed.

End Script.

Lemma run_query_multi_pgvector_empty_store_witness :
  run_query_multi_pgvector cosine_distance_9 svc "red fox" empty_tables []
  = (Failed IndexError, logged (EmbedQuery "red fox") empty_tables, []).
Proof.
  apply (run_query_multi_pgvector_empty_store cosine_distance_9 svc "red fox"
           empty_tables (mkTables [] []) []);
    reflexivity.
Defined.

Lemma run_query_multi_pgvector_prints_nearest_witness :
  exists e,
    In e (stored_rows store_AB) /\
    run_query_multi_pgvector cosine_distance_9 svc "red fox" store_AB []
    = (Done, logged (EmbedQuery "red fox") store_AB, ([] ++ [document e])%list) /\
    forall e', In e' (stored_rows store_AB) ->
      cosine_distance_9 (embedding e) (embed_query stub "red fox")
      <= cosine_distance_9 (embedding e') (embed_query stub "red fox").
Proof.
  apply (run_query_multi_pgvector_prints_nearest cosine_distance_9 svc "red fox"
           store_AB (tables_of store_AB) []).
  - reflexivity.
  - reflexivity.
  - discriminate.
  - intros e He. cbn in He. destruct He as [<-|[<-|[<-|[]]]]; reflexivity.
Defined.

Example run_query_multi_pgvector_red_fox :
  run_query_multi_pgvector cosine_distance_9 svc "red fox" store_AB []
  = (Done, logged (EmbedQuery "red fox") store_AB, ["red fox"]).
Proof. vm_compute. reflexivity. Qed.

(** X15. Steps 9 and 10 of the script leave the store as they found it:
    for every [docs] and every state of the server both tables are
    afterwards what they were, so neither collection has been deleted and
    none has been written; the provider has been asked once, for the texts
    of [docs], when the connection could be opened, and not at all
    otherwise. *)
Theorem delete_then_recreate_outcome
        (pg : PgvectorService.t) (docs : list Document) (w : world) :
  schema (after (delete_then_recreate pg docs) w) = schema w /\
  embed_log (after (delete_then_recreate pg docs) w)
  = (if reachable w
     then embed_log w ++ [EmbedDocuments (map page_content docs)]
     else embed_log w)%list.
Proof.
  unfold delete_then_recreate. destruct (reachable w) eqn:Hr.
  - set (w1 := after (PgvectorService.delete_collection pg COLLECTION_NAME) w).
    destruct (delete_collection_after pg COLLECTION_NAME w) as (Hr1 & Hs1 & _ & Hl1).
    fold w1 in Hr1, Hs1, Hl1. rewrite Hr in Hr1.
    assert (H1 : PgvectorService.delete_collection pg COLLECTION_NAME w
                 = (Returns tt, w1)).
    { unfold w1, after.
      rewrite <- (delete_collection_returns pg COLLECTION_NAME w Hr).
      apply surjective_pairing. }
    set (w2 := after (PgvectorService.delete_collection pg COLLECTION_NAME_2) w1).
    destruct (delete_collection_after pg COLLECTION_NAME_2 w1) as (Hr2 & Hs2 & _ & Hl2).
    fold w2 in Hr2, Hs2, Hl2. rewrite Hr1 in Hr2.
    assert (H2 : PgvectorService.delete_collection pg COLLECTION_NAME_2 w1
                 = (Returns tt, w2)).
    { unfold w2, after.
      rewrite <- (delete_collection_returns pg COLLECTION_NAME_2 w1 Hr1).
      apply surjective_pairing. }
    destruct (update_collection_after pg docs COLLECTION_NAME w2) as (_ & Hs3 & _ & Hl3).
    rewrite Hr2 in Hl3.
    unfold after at 1 2.
    rewrite (bind_returns _ _ _ _ _ H1), (bind_returns _ _ _ _ _ H2).
    unfold after in Hs3, Hl3. split; congruence.
  - unfold after.
    rewrite (bind_raises _ _ _ _ _ (delete_collection_refused pg COLLECTION_NAME w Hr)).
    split; reflexivity.
Qed.

(** ** Choosing the provider *)

Lemma ascii_lower_upper (c : ascii) : ascii_lower (ascii_upper c) = ascii_lower c.
Proof. destruct c as [[] [] [] [] [] [] [] []]; reflexivity. Qed.

Lemma ascii_lower_lower (c : ascii) : ascii_lower (ascii_lower c) = ascii_lower c.
Proof. destruct c as [[] [] [] [] [] [] [] []]; reflexivity. Qed.

Lemma lower_recase (mask : list bool) (s : string) :
  lower (recase mask s) = lower s.
Proof.
  revert mask. induction s as [|c s IH]; intros [|b mask]; cbn; try reflexivity.
  rewrite IH. destruct b; now rewrite ?ascii_lower_upper, ?ascii_lower_lower.
Qed.

(** X16. The choice of the provider does not depend on the case in which
    the value of [USE_LOCAL_EMBEDDINGS] is spelled, and a provider handed
    to [_get_embeddings] is returned whatever the environment says. *)
Theorem get_embeddings_choice (mask : list bool) (value : string)
        (e : Embeddings) (env : option string) :
  _get_embeddings None (Some (recase mask value))
  = _get_embeddings None (Some value) /\
  _get_embeddings (Some e) env = Given e.
Proof.
  split; [|reflexivity].
  unfold _get_embeddings, getenv. now rewrite lower_recase.
Qed.

Example get_embeddings_spellings :
  _get_embeddings None (Some "TRUE")
  = HuggingFaceEmbeddings "sentence-transformers/all-MiniLM-L6-v2" /\
  _get_embeddings None (Some "Yes")
  = HuggingFaceEmbeddings "sentence-transformers/all-MiniLM-L6-v2" /\
  _get_embeddings None (Some "1")
  = HuggingFaceEmbeddings "sentence-transformers/all-MiniLM-L6-v2" /\
  _get_embeddings None (Some "on") = OpenAIEmbeddings /\
  _get_embeddings None None = OpenAIEmbeddings.
Proof. repeat split; reflexivity. Qed.
